(** * Smart interview log: the session controller and its history store

    A shallow embedding of the state logic of the React component [App]
    (both variants of it: the plain one and the one gated by an API key
    selection) and of the service wrapper [organizeInterviewNotes] of
    [services/geminiService.ts].

    JavaScript strings are sequences of UTF-16 code units; React state is a
    record; the browser's local storage, the alerts and the calls to the
    generative API are kept in an explicit world that the handlers
    transform. *)

From Stdlib Require Import NArith String Ascii Lia.
From stdpp Require Import base list.

(** ** JavaScript strings *)

Module Js.

Local Open Scope N_scope.

(** A string is the list of its UTF-16 code units; [length] and [slice]
    count code units, as in JavaScript. *)
Abbreviation str := (list N).

(** [WhiteSpace] and [LineTerminator] code points of ECMA-262, the ones
    [String.prototype.trim] strips. *)
Definition isWhiteSpace (c : N) : bool :=
  (c =? 9) || (c =? 10) || (c =? 11) || (c =? 12) || (c =? 13) || (c =? 32)
  || (c =? 160) || (c =? 5760) || ((8192 <=? c) && (c <=? 8202))
  || (c =? 8232) || (c =? 8233) || (c =? 8239) || (c =? 8287)
  || (c =? 12288) || (c =? 65279).

Fixpoint trimStart (s : str) : str :=
  match s with
  | c :: s' => if isWhiteSpace c then trimStart s' else s
  | [] => []
  end.

Definition trimEnd (s : str) : str := rev (trimStart (rev s)).

Definition trim (s : str) : str := trimEnd (trimStart s).

(** [s.slice(0, n)] for a non-negative [n]. *)
Definition slice0 (n : nat) (s : str) : str := take n s.

(** A string is falsy exactly when it is empty. *)
Definition truthy (s : str) : bool :=
  match s with [] => false | _ :: _ => true end.

(** Source literals: the UTF-8 bytes of a literal of this file, decoded
    into UTF-16 code units. *)
Fixpoint utf16 (bs : list N) : str :=
  match bs with
  | [] => []
  | b0 :: r0 =>
      if b0 <? 128 then b0 :: utf16 r0
      else match r0 with
      | [] => []
      | b1 :: r1 =>
          if b0 <? 224 then ((b0 - 192) * 64 + (b1 - 128)) :: utf16 r1
          else match r1 with
          | [] => []
          | b2 :: r2 =>
              if b0 <? 240
              then ((b0 - 224) * 4096 + (b1 - 128) * 64 + (b2 - 128)) :: utf16 r2
              else match r2 with
              | [] => []
              | b3 :: r3 =>
                  let cp := (b0 - 240) * 262144 + (b1 - 128) * 4096
                            + (b2 - 128) * 64 + (b3 - 128) in
                  (55296 + (cp - 65536) / 1024)
                    :: (56320 + (cp - 65536) mod 1024) :: utf16 r3
              end
          end
      end
  end.

Definition lit (s : string) : str :=
  utf16 (map (fun a => N_of_ascii a) (list_ascii_of_string s)).

(** [n.toString()] for a non-negative integer [n]: its decimal digits. *)
Fixpoint digits (fuel : nat) (n : N) (acc : str) : str :=
  match fuel with
  | O => acc
  | S fuel' =>
      let acc' := (48 + n mod 10) :: acc in
      if n <? 10 then acc' else digits fuel' (n / 10) acc'
  end.

Definition toString (n : N) : str := digits (S (N.to_nat (N.log2 n))) n [].

(** The number a string of decimal digits stands for, read from the left
    on top of [acc]. *)
Definition ofDigits (acc : N) (s : str) : N :=
  fold_left (fun a c => 10 * a + (c - 48)) s acc.

End Js.

(** ** types.ts *)

Inductive LogTemplate := PROFESSIONAL | HR | COUNSELING | CASUAL.

#[global] Instance LogTemplate_eq_dec : EqDecision LogTemplate.
Proof. solve_decision. Defined.

(** The string value of each member of the enumeration. *)
Definition LogTemplate_value (t : LogTemplate) : Js.str :=
  match t with
  | PROFESSIONAL => Js.lit "전문적 면담"
  | HR => Js.lit "인사/성과 면담"
  | COUNSELING => Js.lit "심리/상담"
  | CASUAL => Js.lit "일반/미팅"
  end.

Module InterviewLog.

Record t := mk {
  id : Js.str;
  title : Js.str;
  date : Js.str;
  originalText : Js.str;
  organizedText : Js.str;
  template : LogTemplate
}.

#[global] Instance eq_dec : EqDecision t.
Proof. solve_decision. Defined.

End InterviewLog.

(** ** Values thrown and promises settled *)

(** A thrown value is an instance of [Error], with its message, or some
    other value whose [message] property can be read and may be absent. *)
Inductive Thrown :=
| ErrorObject (message : Js.str)
| NonError (message : option Js.str).

Definition instanceofError (e : Thrown) : bool :=
  match e with ErrorObject _ => true | NonError _ => false end.

Definition message (e : Thrown) : option Js.str :=
  match e with ErrorObject m => Some m | NonError m => m end.

Inductive Settled (A : Type) :=
| Fulfilled (value : A)
| Rejected (reason : Thrown).

Arguments Fulfilled {A} value.
Arguments Rejected {A} reason.

(** What the handlers do to the outside, in the order they do it. The
    request to the generative API is kept as the two values the prompt is
    built from; the wording of the prompt is not modelled. *)
Inductive Effect :=
| GenerateContent (text : Js.str) (template : LogTemplate)
| ConsoleError (label : Js.str)
| Alert (text : Js.str)
| ClipboardWrite (text : Js.str)
| Download (content : Js.str).

(** ** services/geminiService.ts *)

Module GeminiService.

(** [response.text] is a string or undefined. *)
Record GenerateContentResponse := { text : option Js.str }.

Definition emptyResultMessage : Js.str :=
  Js.lit "내용을 정리하는 데 실패했습니다.".

Definition failureMessage : Js.str :=
  Js.lit "노트를 정리할 수 없습니다. 연결 상태를 확인하거나 잠시 후 다시 시도해주세요.".

(** The request [organizeInterviewNotes] sends before it awaits. *)
Definition request (text : Js.str) (template : LogTemplate) : Effect :=
  GenerateContent text template.

(** [organizeInterviewNotes] from the point where [generateContent]
    settles with [api]: the effects of the wrapper and how its own promise
    settles. [response.text || fallback] takes the fallback when the text
    is undefined or empty. *)
Definition resume
    (api : Settled GenerateContentResponse) : list Effect * Settled Js.str :=
  match api with
  | Fulfilled response =>
      match text response with
      | Some s => if Js.truthy s then ([], Fulfilled s)
                  else ([], Fulfilled emptyResultMessage)
      | None => ([], Fulfilled emptyResultMessage)
      end
  | Rejected _ =>
      ([ConsoleError (Js.lit "Gemini API Error:")],
       Rejected (ErrorObject failureMessage))
  end.

(** The whole of [organizeInterviewNotes(text, template)], given how
    [generateContent] settles. *)
Definition organizeInterviewNotes (text : Js.str) (template : LogTemplate)
    (api : Settled GenerateContentResponse) : list Effect * Settled Js.str :=
  (request text template :: fst (resume api), snd (resume api)).

End GeminiService.

(** ** The component [App] *)

Module App.

(** The two variants of the component: the plain one, and the one that
    first asks for an API key and has an [API_KEY_ERROR] branch. *)
Inductive Variant := Plain | KeyGated.

(** The item of local storage under [STORAGE_KEY]: text that
    [JSON.stringify] produced from a list of logs (and [JSON.parse] reads
    back as that list), or any other text: the empty string, which the
    loading effect skips as falsy, or text that [JSON.parse] rejects. *)
Inductive Item :=
| Json (logs : list InterviewLog.t)
| Raw (text : Js.str).

(** The closure of the render in which [handleOrganize] was invoked: the
    values its continuation reads after the await. *)
Record Closure := {
  c_inputText : Js.str;
  c_template : LogTemplate;
  c_history : list InterviewLog.t
}.

(** The state of the component, the item in local storage, the
    conversions awaiting the service, and the effects so far. *)
Record World := mkWorld {
  isKeySelected : option bool;
  inputText : Js.str;
  organizedContent : Js.str;
  template : LogTemplate;
  isProcessing : bool;
  history : list InterviewLog.t;
  selectedLogId : option Js.str;
  showCopyToast : bool;
  localStorage : option Item;
  inflight : list Closure;
  effects : list Effect
}.

Definition initial : World :=
  mkWorld None [] [] PROFESSIONAL false [] None false None [] [].

Definition setIsKeySelected (b : bool) (w : World) : World :=
  mkWorld (Some b) (inputText w) (organizedContent w) (template w)
    (isProcessing w) (history w) (selectedLogId w) (showCopyToast w)
    (localStorage w) (inflight w) (effects w).

Definition setInputText (s : Js.str) (w : World) : World :=
  mkWorld (isKeySelected w) s (organizedContent w) (template w)
    (isProcessing w) (history w) (selectedLogId w) (showCopyToast w)
    (localStorage w) (inflight w) (effects w).

Definition setOrganizedContent (s : Js.str) (w : World) : World :=
  mkWorld (isKeySelected w) (inputText w) s (template w)
    (isProcessing w) (history w) (selectedLogId w) (showCopyToast w)
    (localStorage w) (inflight w) (effects w).

Definition setTemplate (t : LogTemplate) (w : World) : World :=
  mkWorld (isKeySelected w) (inputText w) (organizedContent w) t
    (isProcessing w) (history w) (selectedLogId w) (showCopyToast w)
    (localStorage w) (inflight w) (effects w).

Definition setIsProcessing (b : bool) (w : World) : World :=
  mkWorld (isKeySelected w) (inputText w) (organizedContent w) (template w)
    b (history w) (selectedLogId w) (showCopyToast w)
    (localStorage w) (inflight w) (effects w).

Definition setHistory (h : list InterviewLog.t) (w : World) : World :=
  mkWorld (isKeySelected w) (inputText w) (organizedContent w) (template w)
    (isProcessing w) h (selectedLogId w) (showCopyToast w)
    (localStorage w) (inflight w) (effects w).

Definition setSelectedLogId (i : option Js.str) (w : World) : World :=
  mkWorld (isKeySelected w) (inputText w) (organizedContent w) (template w)
    (isProcessing w) (history w) i (showCopyToast w)
    (localStorage w) (inflight w) (effects w).

Definition setShowCopyToast (b : bool) (w : World) : World :=
  mkWorld (isKeySelected w) (inputText w) (organizedContent w) (template w)
    (isProcessing w) (history w) (selectedLogId w) b
    (localStorage w) (inflight w) (effects w).

(** [localStorage.setItem(STORAGE_KEY, JSON.stringify(logs))]. *)
Definition setItem (logs : list InterviewLog.t) (w : World) : World :=
  mkWorld (isKeySelected w) (inputText w) (organizedContent w) (template w)
    (isProcessing w) (history w) (selectedLogId w) (showCopyToast w)
    (Some (Json logs)) (inflight w) (effects w).

Definition setInflight (l : list Closure) (w : World) : World :=
  mkWorld (isKeySelected w) (inputText w) (organizedContent w) (template w)
    (isProcessing w) (history w) (selectedLogId w) (showCopyToast w)
    (localStorage w) l (effects w).

Definition emit (es : list Effect) (w : World) : World :=
  mkWorld (isKeySelected w) (inputText w) (organizedContent w) (template w)
    (isProcessing w) (history w) (selectedLogId w) (showCopyToast w)
    (localStorage w) (inflight w) (effects w ++ es).

(** [Date.now()] and [new Date().toLocaleDateString('ko-KR')] as read
    when a conversion completes. *)
Record Clock := { now : N; localeDate : Js.str }.

(** The effect that loads the history when the component mounts. An
    absent or empty item is skipped; text that does not parse is reported
    on the console and the history is left as it is. *)
Definition loadHistory (w : World) : World :=
  match localStorage w with
  | None => w
  | Some (Json logs) => setHistory logs w
  | Some (Raw s) =>
      if Js.truthy s
      then emit [ConsoleError (Js.lit "Failed to parse history")] w
      else w
  end.

(** [saveToHistory], with the [history] its callback closed over. *)
Definition saveToHistory (closed : list InterviewLog.t)
    (newLog : InterviewLog.t) (w : World) : World :=
  let updated := take 20 (newLog :: closed) in
  setItem updated (setHistory updated w).

Definition handleNewLog (w : World) : World :=
  setTemplate PROFESSIONAL
    (setSelectedLogId None (setOrganizedContent [] (setInputText [] w))).

(** The [title] of the log that [handleOrganize] creates. *)
Definition newLogTitle (inputText : Js.str) : Js.str :=
  Js.trim (Js.slice0 25 inputText)
  ++ (if (25 <? length inputText)%nat then Js.lit "..." else []).

Definition newLog (c : Closure) (clock : Clock) (result : Js.str)
    : InterviewLog.t :=
  InterviewLog.mk (Js.toString (now clock)) (newLogTitle (c_inputText c))
    (localeDate clock) (c_inputText c) result (c_template c).

Definition closure (w : World) : Closure :=
  Build_Closure (inputText w) (template w) (history w).

(** [handleOrganize] up to its await: the guard on the input, the busy
    flag, and the call to the service, whose promise is left pending with
    the closure of this render. *)
Definition handleOrganize (w : World) : World :=
  if negb (Js.truthy (Js.trim (inputText w))) then w
  else
    emit [GeminiService.request (inputText w) (template w)]
      (setInflight (inflight w ++ [closure w]) (setIsProcessing true w)).

(** The rest of the [try] block, once the service has fulfilled. *)
Definition handleOrganize_try (c : Closure) (clock : Clock)
    (result : Js.str) (w : World) : World :=
  let log := newLog c clock result in
  setSelectedLogId (Some (InterviewLog.id log))
    (saveToHistory (c_history c) log (setOrganizedContent result w)).

Definition genericErrorMessage : Js.str := Js.lit "오류가 발생했습니다.".

Definition keyErrorMessage : Js.str :=
  Js.lit "선택된 API 키에 문제가 있습니다. 다시 선택해주세요.".

Definition API_KEY_ERROR : Js.str := Js.lit "API_KEY_ERROR".

(** [error instanceof Error ? error.message : "..."]. *)
Definition alertText (error : Thrown) : Js.str :=
  match error with
  | ErrorObject m => m
  | NonError _ => genericErrorMessage
  end.

(** The [catch] block of each variant. *)
Definition handleOrganize_catch (v : Variant) (error : Thrown)
    (w : World) : World :=
  match v with
  | Plain => emit [Alert (alertText error)] w
  | KeyGated =>
      if decide (message error = Some API_KEY_ERROR)
      then emit [Alert keyErrorMessage] (setIsKeySelected false w)
      else emit [Alert (alertText error)] w
  end.

(** [handleOrganize] after its await: [try] or [catch], then [finally]. *)
Definition handleOrganize_resume (v : Variant) (c : Closure) (clock : Clock)
    (r : Settled Js.str) (w : World) : World :=
  setIsProcessing false
    match r with
    | Fulfilled result => handleOrganize_try c clock result w
    | Rejected error => handleOrganize_catch v error w
    end.

(** The [k]-th pending call to [generateContent] settles with [api]: the
    wrapper finishes, then the handler that awaited it. *)
Definition settle (v : Variant) (k : nat)
    (api : Settled GeminiService.GenerateContentResponse) (clock : Clock)
    (w : World) : World :=
  match inflight w !! k with
  | None => w
  | Some c =>
      let (es, r) := GeminiService.resume api in
      handleOrganize_resume v c clock r
        (emit es (setInflight (delete k (inflight w)) w))
  end.

(** One whole conversion: the handler is invoked and the call it made, if
    any, settles before anything else happens. *)
Definition conversion (v : Variant)
    (api : Settled GeminiService.GenerateContentResponse) (clock : Clock)
    (w : World) : World :=
  settle v (length (inflight w)) api clock (handleOrganize w).

Definition confirmClear (confirmed : bool) (w : World) : World :=
  if Js.truthy (Js.trim (inputText w)) || Js.truthy (organizedContent w)
  then if confirmed then handleNewLog w else w
  else handleNewLog w.

Definition copyToClipboard (w : World) : World :=
  if negb (Js.truthy (organizedContent w)) then w
  else setShowCopyToast true (emit [ClipboardWrite (organizedContent w)] w).

Definition downloadAsMarkdown (w : World) : World :=
  emit [Download (organizedContent w)] w.

Definition selectHistoryItem (log : InterviewLog.t) (w : World) : World :=
  setSelectedLogId (Some (InterviewLog.id log))
    (setTemplate (InterviewLog.template log)
       (setOrganizedContent (InterviewLog.organizedText log)
          (setInputText (InterviewLog.originalText log) w))).

(** [deleteHistoryItem]; [confirmed] is the answer to its [confirm]. *)
Definition deleteHistoryItem (id : Js.str) (confirmed : bool)
    (w : World) : World :=
  if confirmed then
    let updated := filter (fun h => InterviewLog.id h <> id) (history w) in
    let w' := setItem updated (setHistory updated w) in
    if decide (selectedLogId w = Some id) then handleNewLog w' else w'
  else w.

(** [checkKey], once [hasSelectedApiKey] has settled. *)
Definition checkKey (r : Settled bool) (w : World) : World :=
  match r with
  | Fulfilled hasKey => setIsKeySelected hasKey w
  | Rejected _ => setIsKeySelected false w
  end.

(** [handleOpenKeySelector], once [openSelectKey] has fulfilled. *)
Definition handleOpenKeySelector (w : World) : World :=
  setIsKeySelected true w.

(** *** The rendered interface *)

(** The key-gated variant renders the setup gate instead of the main
    content while [isKeySelected === false]. *)
Definition mainRendered (v : Variant) (w : World) : bool :=
  match v with
  | Plain => true
  | KeyGated => negb (bool_decide (isKeySelected w = Some false))
  end.

(** The [disabled] property of the button bound to [handleOrganize]. *)
Definition organizeDisabled (w : World) : bool :=
  negb (Js.truthy (Js.trim (inputText w))) || isProcessing w.

(** Modelled from the spec: the component [Button] of
    [components/Button] is not among the sources. It is taken to pass
    [disabled] and [onClick] on to a native button, which dispatches no
    click while it is disabled, so that "a new conversion may not be
    started concurrently". *)
Definition Button (disabled : bool) (onClick : World -> World)
    (w : World) : World :=
  if disabled then w else onClick w.

(** The copy and download buttons are rendered only next to a result
    that is not being replaced. *)
Definition resultActionsRendered (w : World) : bool :=
  Js.truthy (organizedContent w) && negb (isProcessing w).

(** What can happen to the mounted component. History items are clicked
    by their position in the rendered list. *)
Inductive Event :=
| Mounted
| KeyChecked (r : Settled bool)
| KeySelectorClosed
| ChangeInput (value : Js.str)
| ChangeTemplate (value : LogTemplate)
| ClickNew
| ClickItem (i : nat)
| ClickTrash (i : nat) (confirmed : bool)
| ClickClear (confirmed : bool)
| ClickOrganize
| ClickCopy
| CopyToastTimeout
| ClickDownload
| ServiceSettled (k : nat)
    (api : Settled GeminiService.GenerateContentResponse) (clock : Clock).

Definition onMain (v : Variant) (f : World -> World) (w : World) : World :=
  if mainRendered v w then f w else w.

Definition step (v : Variant) (e : Event) (w : World) : World :=
  match e with
  | Mounted => loadHistory w
  | KeyChecked r => match v with Plain => w | KeyGated => checkKey r w end
  | KeySelectorClosed =>
      match v with Plain => w | KeyGated => handleOpenKeySelector w end
  | ChangeInput s => onMain v (setInputText s) w
  | ChangeTemplate t => onMain v (setTemplate t) w
  | ClickNew => onMain v (Button false handleNewLog) w
  | ClickItem i =>
      match history w !! i with
      | Some log => onMain v (selectHistoryItem log) w
      | None => w
      end
  | ClickTrash i confirmed =>
      match history w !! i with
      | Some log =>
          onMain v (deleteHistoryItem (InterviewLog.id log) confirmed) w
      | None => w
      end
  | ClickClear confirmed => onMain v (Button false (confirmClear confirmed)) w
  | ClickOrganize =>
      onMain v (Button (organizeDisabled w) handleOrganize) w
  | ClickCopy =>
      if resultActionsRendered w
      then onMain v (Button false copyToClipboard) w else w
  | CopyToastTimeout => setShowCopyToast false w
  | ClickDownload =>
      if resultActionsRendered w
      then onMain v (Button false downloadAsMarkdown) w else w
  | ServiceSettled k api clock => settle v k api clock w
  end.

Definition run (v : Variant) (es : list Event) (w : World) : World :=
  fold_left (fun w e => step v e w) es w.



(** *** The history store, as the component uses it *)

(** An append from the current render: the callback closes over the
    history as it stands. *)
Definition append (log : InterviewLog.t) (w : World) : World :=
  saveToHistory (history w) log w.

Definition appends (logs : list InterviewLog.t) (w : World) : World :=
  fold_left (fun w log => append log w) logs w.

(** *** Sample data *)

Definition sampleLog (n : N) : InterviewLog.t :=
  InterviewLog.mk (Js.toString (1700000000000 + n))
    (Js.lit "Met with Kim") (Js.lit "2023. 11. 14.")
    (Js.lit "Met with Kim") (Js.toString n) PROFESSIONAL.

Definition sampleLogs (n : nat) : list InterviewLog.t :=
  map (fun i => sampleLog (N.of_nat i)) (seq 1 n).

Definition sampleClock : Clock :=
  Build_Clock 1700000000000 (Js.lit "2023. 11. 14.").

(** The scenario of the specification: notes typed into a fresh session. *)
Definition sampleSession : World :=
  setInputText (Js.lit "Met with Kim today, discussed project wrap-up")
    initial.

(** *** The session along the events of the interface *)

(** The world the component mounts in, whatever the storage holds. *)
Definition mountedWith (item : option Item) : World :=
  mkWorld None [] [] PROFESSIONAL false [] None false item [] [].


(** Neither the history nor a stored list is longer than 20. *)
Definition historyBounded (w : World) : Prop :=
  length (history w) <= 20
  /\ forall logs, localStorage w = Some (Json logs) -> length logs <= 20.


(** The events that are clicks and edits on the main content, which the
    key-gated variant does not render behind its setup gate. *)
Definition onMainContent (e : Event) : bool :=
  match e with
  | Mounted | KeyChecked _ | KeySelectorClosed | CopyToastTimeout
  | ServiceSettled _ _ _ => false
  | _ => true
  end.

(** The four fields [handleNewLog] resets. *)
Definition blankEntry (w : World) : Prop :=
  inputText w = [] /\ organizedContent w = []
  /\ selectedLogId w = None /\ template w = PROFESSIONAL.

End App.

(** * Properties *)

Import App.

(** Literals stay folded while goals are simplified. *)
#[global] Arguments Js.lit : simpl never.
#[global] Arguments Js.toString : simpl never.

(** Reduce the projections of a world that is given by its constructor. *)
Ltac world_simpl :=
  cbn [isKeySelected inputText organizedContent template isProcessing history
       selectedLogId showCopyToast localStorage inflight effects].

(** ** Strings *)

Example lit_ascii : Js.lit "a b" = [97; 32; 98]%N.
Proof. reflexivity. Qed.

Example lit_hangul : Js.lit "면담" = [47732; 45812]%N.
Proof. reflexivity. Qed.

Example toString_ms : Js.toString 1700000000000 = Js.lit "1700000000000".
Proof. reflexivity. Qed.

Example toString_zero : Js.toString 0 = Js.lit "0".
Proof. reflexivity. Qed.

Example trim_both : Js.trim (Js.lit "  a b  ") = Js.lit "a b".
Proof. reflexivity. Qed.

Lemma trimStart_blank (s : Js.str) :
  Forall (fun c => Js.isWhiteSpace c = true) s -> Js.trimStart s = [].
Proof.
  induction 1 as [|c s Hc _ IH]; simpl; [reflexivity|].
  rewrite Hc. exact IH.
Qed.

Lemma trim_blank (s : Js.str) :
  Forall (fun c => Js.isWhiteSpace c = true) s -> Js.trim s = [].
Proof.
  intros H. unfold Js.trim, Js.trimEnd.
  rewrite (trimStart_blank s H). reflexivity.
Qed.

Lemma trimStart_nil_blank (s : Js.str) :
  Js.trimStart s = [] -> Forall (fun c => Js.isWhiteSpace c = true) s.
Proof.
  induction s as [|c s IH]; simpl; [constructor|].
  destruct (Js.isWhiteSpace c) eqn:Hc; [|discriminate].
  intros H. constructor; auto.
Qed.

Lemma trim_nil_blank (s : Js.str) :
  Js.trim s = [] -> Forall (fun c => Js.isWhiteSpace c = true) s.
Proof.
  unfold Js.trim, Js.trimEnd. intros H.
  apply trimStart_nil_blank.
  destruct (Js.trimStart s) as [|c t] eqn:E; [reflexivity|].
  exfalso.
  assert (Hne : Js.trimStart (rev (c :: t)) <> []).
  { assert (Hc : Js.isWhiteSpace c = false).
    { clear H. induction s as [|d s IH]; simpl in E; [discriminate|].
      destruct (Js.isWhiteSpace d) eqn:Hd; [auto|]. congruence. }
    simpl. generalize (rev t). intros u.
    induction u as [|d u IH]; simpl.
    - rewrite Hc. discriminate.
    - destruct (Js.isWhiteSpace d); [exact IH | discriminate]. }
  apply Hne. apply (f_equal (@rev N)) in H.
  rewrite rev_involutive in H. exact H.
Qed.

(** ** The title of a new log *)

Example title_short :
  newLogTitle (Js.lit " Met with Kim ") = Js.lit "Met with Kim".
Proof. reflexivity. Qed.

Example title_long :
  newLogTitle (Js.lit "Met with Kim today, discussed project wrap-up")
  = Js.lit "Met with Kim today, discu...".
Proof. reflexivity. Qed.

Example title_cut_at_space :
  newLogTitle (Js.lit "Met with Kim today, and  then we left")
  = Js.lit "Met with Kim today, and...".
Proof. reflexivity. Qed.



(** ** Blank input *)

Lemma handleOrganize_blank (w : World) :
  Forall (fun c => Js.isWhiteSpace c = true) (inputText w) ->
  handleOrganize w = w.
Proof.
  intros H. unfold handleOrganize. rewrite (trim_blank _ H). reflexivity.
Qed.

Lemma settle_none (v : Variant) (k : nat) api clock (w : World) :
  inflight w !! k = None -> settle v k api clock w = w.
Proof. intros H. unfold settle. rewrite H. reflexivity. Qed.

(** C7. With an input that is empty or all white space the handler
    returns at its guard: the world is the one it was invoked in (every
    field of the state, the stored item, the pending calls and the effects,
    so neither a request nor an alert is added), also when the button's
    [disabled] is left out of the picture, and a whole conversion is that
    same no-op. *)
Theorem blank_input_noop (v : Variant) (w : World) :
  Forall (fun c => Js.isWhiteSpace c = true) (inputText w) ->
  handleOrganize w = w
  /\ step v ClickOrganize w = w
  /\ forall api clock, conversion v api clock w = w.
Proof.
  intros H. pose proof (handleOrganize_blank w H) as Hh.
  split; [exact Hh|]. split.
  - unfold step, onMain, Button.
    destruct (mainRendered v w), (organizeDisabled w); auto.
  - intros api clock. unfold conversion. rewrite Hh.
    apply settle_none. apply lookup_ge_None_2. lia.
Qed.

Lemma blank_input_noop_witness :
  let w := setIsProcessing false
             (setOrganizedContent (Js.lit "REPORT")
                (setInputText (Js.lit "  ") initial)) in
  handleOrganize w = w
  /\ step KeyGated ClickOrganize w = w
  /\ forall api clock, conversion KeyGated api clock w = w.
Proof.
  intros w. apply (blank_input_noop KeyGated w).
  repeat constructor.
Defined.

(** ** The bounded history *)

Lemma take_cons_take {A} (n : nat) (x : A) (l : list A) :
  take (S n) (x :: take (S n) l) = take (S n) (x :: l).
Proof.
  simpl. f_equal. rewrite take_take. f_equal. lia.
Qed.

Lemma history_append (log : InterviewLog.t) (w : World) :
  history (append log w) = take 20 (log :: history w).
Proof. reflexivity. Qed.

Lemma localStorage_append (log : InterviewLog.t) (w : World) :
  localStorage (append log w) = Some (Json (history (append log w))).
Proof. reflexivity. Qed.

Lemma appends_snoc (logs : list InterviewLog.t) (log : InterviewLog.t)
    (w : World) :
  appends (logs ++ [log]) w = append log (appends logs w).
Proof. unfold appends. rewrite fold_left_app. reflexivity. Qed.

Lemma history_appends (logs : list InterviewLog.t) (log : InterviewLog.t)
    (w : World) :
  history (appends (logs ++ [log]) w)
  = take 20 (rev (logs ++ [log]) ++ history w).
Proof.
  revert log. induction logs as [|prev logs IH] using rev_ind; intros log.
  - reflexivity.
  - rewrite appends_snoc, history_append, IH.
    rewrite take_cons_take.
    rewrite (rev_app_distr (logs ++ [prev]) [log]). reflexivity.
Qed.

Example history_of_three (a b c : InterviewLog.t) :
  history (appends [a; b; c] initial) = [c; b; a].
Proof. reflexivity. Qed.

(** C2. After each append of a sequence of appends, whatever the history
    was before: the history has at most 20 records; the record just
    appended is at index 0; the history is the first 20 of the newest-first
    sequence (the records appended, latest first, then the earlier
    history), so what is dropped is dropped from the old end; the stored
    item is that same list; and 21 appends to an empty history leave
    exactly appends 2 to 21, latest first. *)
Theorem history_bounded_newest_first
    (w : World) (logs : list InterviewLog.t) (log : InterviewLog.t) :
  let w' := appends (logs ++ [log]) w in
  length (history w') <= 20
  /\ history w' !! 0 = Some log
  /\ history w' = take 20 (log :: history (appends logs w))
  /\ history w' = take 20 (rev (logs ++ [log]) ++ history w)
  /\ localStorage w' = Some (Json (history w'))
  /\ (length logs = 20 -> history w = [] ->
      history w' = rev (drop 1 (logs ++ [log]))).
Proof.
  intros w'. subst w'.
  pose proof (history_appends logs log w) as Hall.
  rewrite appends_snoc in *.
  split; [|split; [|split; [|split; [|split]]]].
  - rewrite history_append, length_take. lia.
  - reflexivity.
  - reflexivity.
  - exact Hall.
  - reflexivity.
  - intros Hlen Hnil. rewrite Hall, Hnil, app_nil_r.
    destruct logs as [|first rest]; [discriminate|].
    simpl in Hlen. change ((first :: rest) ++ [log]) with (first :: (rest ++ [log])).
    simpl rev. simpl drop. rewrite drop_0.
    apply take_app_length'.
    rewrite length_rev, length_app. simpl. lia.
Qed.

Lemma history_bounded_newest_first_witness :
  let w' := appends (sampleLogs 20 ++ [sampleLog 21]) initial in
  length (history w') <= 20
  /\ history w' = rev (drop 1 (sampleLogs 20 ++ [sampleLog 21])).
Proof.
  intros w'.
  destruct (history_bounded_newest_first initial (sampleLogs 20) (sampleLog 21))
    as (Hlen & _ & _ & _ & _ & Hscenario).
  split; [exact Hlen|].
  apply Hscenario; reflexivity.
Defined.

(** ** A conversion from invocation to settlement *)

Lemma truthy_nonempty (s : Js.str) : s <> [] -> Js.truthy s = true.
Proof. destruct s; [congruence | reflexivity]. Qed.

Lemma handleOrganize_nonblank (w : World) :
  Js.trim (inputText w) <> [] ->
  handleOrganize w
  = emit [GeminiService.request (inputText w) (template w)]
      (setInflight (inflight w ++ [closure w]) (setIsProcessing true w)).
Proof.
  intros H. unfold handleOrganize. rewrite (truthy_nonempty _ H). reflexivity.
Qed.

(** The handler makes its call exactly when the input is not blank. *)
Lemma handleOrganize_calls_iff (w : World) :
  effects (handleOrganize w)
  = effects w ++ [GeminiService.request (inputText w) (template w)]
  <-> Js.trim (inputText w) <> [].
Proof.
  split.
  - intros H Hblank. unfold handleOrganize in H. rewrite Hblank in H.
    simpl in H. apply (f_equal length) in H.
    rewrite length_app in H. simpl in H. lia.
  - intros H. rewrite (handleOrganize_nonblank w H). reflexivity.
Qed.

(** A conversion on a non-blank input: the request, the effects of the
    wrapper, then the handler resumed on the world it suspended in. *)
Lemma conversion_nonblank (v : Variant) api (clock : Clock) (w : World) :
  Js.trim (inputText w) <> [] ->
  conversion v api clock w
  = handleOrganize_resume v (closure w) clock
      (snd (GeminiService.organizeInterviewNotes (inputText w) (template w)
              api))
      (emit (fst (GeminiService.organizeInterviewNotes (inputText w)
                    (template w) api))
         (setIsProcessing true w)).
Proof.
  intros H. unfold conversion. rewrite (handleOrganize_nonblank w H).
  unfold settle. cbn [inflight emit setInflight].
  rewrite list_lookup_middle by reflexivity.
  unfold GeminiService.organizeInterviewNotes.
  destruct (GeminiService.resume api) as [es r].
  cbn [fst snd]. f_equal.
  unfold emit, setInflight, setIsProcessing. world_simpl.
  rewrite delete_middle, app_nil_r, <- app_assoc. reflexivity.
Qed.

Example scenario_success :
  let w := conversion Plain
             (Fulfilled (GeminiService.Build_GenerateContentResponse
                           (Some (Js.lit "REPORT..."))))
             sampleClock sampleSession in
  history w
  = [InterviewLog.mk (Js.lit "1700000000000")
       (Js.lit "Met with Kim today, discu...") (Js.lit "2023. 11. 14.")
       (Js.lit "Met with Kim today, discussed project wrap-up")
       (Js.lit "REPORT...") PROFESSIONAL]
  /\ organizedContent w = Js.lit "REPORT..."
  /\ selectedLogId w = Some (Js.lit "1700000000000")
  /\ isProcessing w = false
  /\ inflight w = []
  /\ localStorage w = Some (Json (history w)).
Proof. vm_compute. repeat split. Qed.



(** ** The service wrapper *)

Example emptyResultMessage_nonempty : GeminiService.emptyResultMessage <> [].
Proof. vm_compute. discriminate. Qed.

(** C10. When [generateContent] fulfils, the wrapper fulfils with a
    string that is never empty: the text of the response when there is a
    non-empty one, and otherwise (text undefined or empty) the fixed
    message; a conversion on such a response records the fixed message as
    [organizedText]. *)
Theorem fulfilled_never_empty (text : Js.str) (template : LogTemplate)
    (response : GeminiService.GenerateContentResponse) :
  exists s,
    GeminiService.organizeInterviewNotes text template (Fulfilled response)
    = ([GeminiService.request text template], Fulfilled s)
    /\ s <> []
    /\ (GeminiService.text response = None
        \/ GeminiService.text response = Some [] ->
        s = GeminiService.emptyResultMessage
        /\ s = Js.lit "내용을 정리하는 데 실패했습니다."
        /\ forall v clock w, Js.trim (inputText w) <> [] ->
           exists log,
             history (conversion v (Fulfilled response) clock w) !! 0
             = Some log
             /\ InterviewLog.organizedText log
                = GeminiService.emptyResultMessage)
    /\ (forall t, GeminiService.text response = Some t -> t <> [] -> s = t).
Proof.
  destruct response as [[[|c t]|]].
  - exists GeminiService.emptyResultMessage. split; [reflexivity|].
    split; [exact emptyResultMessage_nonempty|]. split.
    + intros _. split; [reflexivity|]. split; [reflexivity|].
      intros v clock w Hnb.
      rewrite (conversion_nonblank v _ clock w Hnb).
      eexists. split; reflexivity.
    + intros t Ht Hne. simpl in Ht. congruence.
  - exists (c :: t). split; [reflexivity|]. split; [discriminate|]. split.
    + intros [H|H]; simpl in H; discriminate.
    + intros t' Ht _. simpl in Ht. congruence.
  - exists GeminiService.emptyResultMessage. split; [reflexivity|].
    split; [exact emptyResultMessage_nonempty|]. split.
    + intros _. split; [reflexivity|]. split; [reflexivity|].
      intros v clock w Hnb.
      rewrite (conversion_nonblank v _ clock w Hnb).
      eexists. split; reflexivity.
    + intros t Ht. simpl in Ht. discriminate.
Qed.

Lemma fulfilled_never_empty_witness :
  exists s,
    GeminiService.organizeInterviewNotes (inputText sampleSession) CASUAL
      (Fulfilled (GeminiService.Build_GenerateContentResponse None))
    = ([GeminiService.request (inputText sampleSession) CASUAL], Fulfilled s)
    /\ s = GeminiService.emptyResultMessage.
Proof.
  destruct (fulfilled_never_empty (inputText sampleSession) CASUAL
              (GeminiService.Build_GenerateContentResponse None))
    as (s & Hs & _ & Hfixed & _).
  exists s. split; [exact Hs|].
  apply Hfixed. left. reflexivity.
Defined.

(** ** Failures *)

Lemma conversion_rejected (v : Variant) (reason : Thrown) (clock : Clock)
    (w : World) :
  Js.trim (inputText w) <> [] ->
  conversion v (Rejected reason) clock w
  = setIsProcessing false
      (emit [GeminiService.request (inputText w) (template w);
             ConsoleError (Js.lit "Gemini API Error:");
             Alert GeminiService.failureMessage] w).
Proof.
  intros Hnb. rewrite (conversion_nonblank v _ clock w Hnb).
  unfold GeminiService.organizeInterviewNotes.
  cbn [GeminiService.resume fst snd].
  unfold handleOrganize_resume, handleOrganize_catch.
  assert (Hno : message (ErrorObject GeminiService.failureMessage)
                <> Some API_KEY_ERROR).
  { vm_compute. discriminate. }
  destruct v; [|rewrite decide_False by exact Hno];
    unfold emit, setIsProcessing; world_simpl; rewrite <- app_assoc;
    reflexivity.
Qed.

(** C4. When the call made by a conversion is rejected, whatever the
    reason: the displayed result, the selection, the input text, the
    template, the history (and the stored item and the key flag) are as
    before the call, [isProcessing] is false again, and what is added to
    the effects is the request, the console report of the wrapper and one
    alert with the message of the wrapper's failure. The [catch] block by
    itself alerts the message of an [Error] and the generic text for any
    other value, and changes nothing but the busy flag, outside the
    [API_KEY_ERROR] branch of the key-gated variant; in every branch, for
    every thrown value, it leaves those fields as they were and ends with
    [isProcessing] false. *)
Theorem failed_conversion
    (v : Variant) (w : World) (reason : Thrown) (clock : Clock) :
  Js.trim (inputText w) <> [] ->
  let w' := conversion v (Rejected reason) clock w in
  (organizedContent w' = organizedContent w
   /\ selectedLogId w' = selectedLogId w
   /\ inputText w' = inputText w
   /\ template w' = template w
   /\ history w' = history w
   /\ localStorage w' = localStorage w
   /\ isKeySelected w' = isKeySelected w
   /\ showCopyToast w' = showCopyToast w
   /\ inflight w' = inflight w)
  /\ isProcessing w' = false
  /\ effects w'
     = effects w ++ [GeminiService.request (inputText w) (template w);
                     ConsoleError (Js.lit "Gemini API Error:");
                     Alert GeminiService.failureMessage]
  /\ (forall c error wc,
        v = Plain \/ message error <> Some API_KEY_ERROR ->
        handleOrganize_resume v c clock (Rejected error) wc
        = setIsProcessing false
            (emit [Alert match error with
                         | ErrorObject m => m
                         | NonError _ => genericErrorMessage
                         end] wc))
  /\ forall c error wc,
       let w2 := handleOrganize_resume v c clock (Rejected error) wc in
       organizedContent w2 = organizedContent wc
       /\ selectedLogId w2 = selectedLogId wc
       /\ inputText w2 = inputText wc
       /\ template w2 = template wc
       /\ history w2 = history wc
       /\ localStorage w2 = localStorage wc
       /\ isProcessing w2 = false.
Proof.
  intros Hnb w'. subst w'. rewrite (conversion_rejected v reason clock w Hnb).
  split; [repeat split|]. split; [reflexivity|]. split; [reflexivity|].
  split.
  - intros c error wc Hbranch.
    unfold handleOrganize_resume, handleOrganize_catch.
    destruct v; [reflexivity|].
    destruct Hbranch as [Hv|Hmsg]; [discriminate|].
    rewrite decide_False by exact Hmsg. reflexivity.
  - intros c error wc.
    unfold handleOrganize_resume, handleOrganize_catch.
    destruct v; [repeat split|].
    destruct (decide (message error = Some API_KEY_ERROR)); repeat split.
Qed.

Lemma failed_conversion_witness :
  let w' := conversion KeyGated
              (Rejected (ErrorObject (Js.lit "Failed to fetch")))
              sampleClock sampleSession in
  isProcessing w' = false
  /\ effects w'
     = effects sampleSession
       ++ [GeminiService.request (inputText sampleSession)
             (template sampleSession);
           ConsoleError (Js.lit "Gemini API Error:");
           Alert GeminiService.failureMessage].
Proof.
  intros w'.
  destruct (failed_conversion KeyGated sampleSession
              (ErrorObject (Js.lit "Failed to fetch")) sampleClock)
    as (_ & Hidle & Heffects & _).
  2: exact (conj Hidle Heffects).
  vm_compute. discriminate.
Defined.

Example failureMessage_not_key_error :
  GeminiService.failureMessage <> API_KEY_ERROR.
Proof. vm_compute. discriminate. Qed.

(** C5. The claim fails on the code. Whatever [generateContent] rejects
    with, a bad credential included, the wrapper rejects with a new [Error]
    carrying its fixed message, which is not [API_KEY_ERROR]: the key-gated
    handler resumes in its generic branch, alerts that fixed message and
    leaves [isKeySelected] as it was. At the rejection of a request made
    with an invalid key, in a session whose key flag is true, the flag is
    still true afterwards and the alert is the generic one. *)
Theorem credential_failure_takes_generic_branch :
  (forall (reason : Thrown) (c : Closure) (clock : Clock) (wc : World),
     handleOrganize_resume KeyGated c clock
       (snd (GeminiService.organizeInterviewNotes (c_inputText c)
               (c_template c) (Rejected reason))) wc
     = setIsProcessing false (emit [Alert GeminiService.failureMessage] wc))
  /\ let w := setIsKeySelected true sampleSession in
     let w' := conversion KeyGated
                 (Rejected (ErrorObject
                    (Js.lit "API key not valid. Please pass a valid API key.")))
                 sampleClock w in
     isKeySelected w' = Some true
     /\ isProcessing w' = false
     /\ organizedContent w' = organizedContent w
     /\ effects w'
        = [GenerateContent (inputText w) PROFESSIONAL;
           ConsoleError (Js.lit "Gemini API Error:");
           Alert GeminiService.failureMessage]
     /\ GeminiService.failureMessage <> keyErrorMessage.
Proof.
  split.
  - intros reason c clock wc.
    unfold GeminiService.organizeInterviewNotes.
    cbn [GeminiService.resume snd].
    unfold handleOrganize_resume, handleOrganize_catch.
    rewrite decide_False; [reflexivity|].
    vm_compute. discriminate.
  - vm_compute. repeat split. discriminate.
Qed.

(** ** Deleting a record *)

Lemma history_delete (id : Js.str) (w : World) :
  history (deleteHistoryItem id true w)
  = filter (fun h => InterviewLog.id h <> id) (history w).
Proof.
  unfold deleteHistoryItem.
  destruct (decide (selectedLogId w = Some id)); reflexivity.
Qed.


Lemma filter_all {A} (P : A -> Prop) `{!forall x, Decision (P x)}
    (l : list A) :
  Forall P l -> filter P l = l.
Proof.
  induction 1 as [|x l Hx _ IH]; [reflexivity|].
  rewrite filter_cons_True by exact Hx. f_equal. exact IH.
Qed.

Example delete_middle_record :
  history (deleteHistoryItem (InterviewLog.id (sampleLog 2)) true
             (setHistory [sampleLog 3; sampleLog 2; sampleLog 1] initial))
  = [sampleLog 3; sampleLog 1].
Proof. vm_compute. reflexivity. Qed.





(** ** One conversion at a time *)























(** * Further properties of the code *)

(** ** What [trim] keeps *)

Lemma trimStart_split (s : Js.str) :
  exists pre, s = pre ++ Js.trimStart s
              /\ Forall (fun c => Js.isWhiteSpace c = true) pre.
Proof.
  induction s as [|c s (pre & Hs & Hpre)]; [exists []; split; constructor|].
  simpl. destruct (Js.isWhiteSpace c) eqn:Hc.
  - exists (c :: pre). split; [simpl; congruence|constructor; assumption].
  - exists []. split; [reflexivity|constructor].
Qed.

Lemma trimStart_head (s : Js.str) c t :
  Js.trimStart s = c :: t -> Js.isWhiteSpace c = false.
Proof.
  induction s as [|d s IH]; simpl; [discriminate|].
  destruct (Js.isWhiteSpace d) eqn:Hd; [exact IH|]. congruence.
Qed.

Lemma trimStart_snoc (u : Js.str) c :
  Js.isWhiteSpace c = false ->
  Js.trimStart (u ++ [c]) = Js.trimStart u ++ [c].
Proof.
  intros Hc. induction u as [|d u IH]; simpl; [rewrite Hc; reflexivity|].
  destruct (Js.isWhiteSpace d); [exact IH|reflexivity].
Qed.

Lemma trimEnd_cons (c : N) (t : Js.str) :
  Js.isWhiteSpace c = false -> Js.trimEnd (c :: t) = c :: Js.trimEnd t.
Proof.
  intros Hc. unfold Js.trimEnd. simpl rev.
  rewrite (trimStart_snoc _ c Hc), rev_app_distr. reflexivity.
Qed.

Lemma trimEnd_split (s : Js.str) :
  exists post, s = Js.trimEnd s ++ post
               /\ Forall (fun c => Js.isWhiteSpace c = true) post.
Proof.
  destruct (trimStart_split (rev s)) as (pre & Hs & Hpre).
  exists (rev pre). split.
  - unfold Js.trimEnd. rewrite <- rev_app_distr, <- Hs.
    symmetry. apply rev_involutive.
  - apply Forall_forall. intros c Hc. rewrite Forall_forall in Hpre.
    apply Hpre. apply list_elem_of_In, in_rev, list_elem_of_In in Hc.
    exact Hc.
Qed.

Lemma trim_split (s : Js.str) :
  exists pre post,
    s = pre ++ Js.trim s ++ post
    /\ Forall (fun c => Js.isWhiteSpace c = true) pre
    /\ Forall (fun c => Js.isWhiteSpace c = true) post.
Proof.
  destruct (trimStart_split s) as (pre & Hs & Hpre).
  destruct (trimEnd_split (Js.trimStart s)) as (post & Ht & Hpost).
  exists pre, post. unfold Js.trim. rewrite <- Ht. auto.
Qed.

Lemma trim_head (s : Js.str) c t :
  Js.trim s = c :: t -> Js.isWhiteSpace c = false.
Proof.
  unfold Js.trim. destruct (Js.trimStart s) as [|d u] eqn:E.
  - discriminate.
  - pose proof (trimStart_head s d u E) as Hd.
    rewrite (trimEnd_cons d u Hd). congruence.
Qed.

Lemma trim_last (s : Js.str) c u :
  Js.trim s = u ++ [c] -> Js.isWhiteSpace c = false.
Proof.
  unfold Js.trim, Js.trimEnd. intros H.
  apply (f_equal (@rev N)) in H.
  rewrite rev_involutive, rev_app_distr in H. simpl in H.
  exact (trimStart_head _ _ _ H).
Qed.

Lemma trim_length (s : Js.str) : length (Js.trim s) <= length s.
Proof.
  destruct (trim_split s) as (pre & post & Hs & _).
  rewrite Hs at 2. rewrite !length_app. lia.
Qed.

Lemma blank_or_not (s : Js.str) :
  Forall (fun c => Js.isWhiteSpace c = true) s
  \/ Exists (fun c => Js.isWhiteSpace c = false) s.
Proof.
  induction s as [|c s [IH|IH]].
  - left. constructor.
  - destruct (Js.isWhiteSpace c) eqn:Hc.
    + left. constructor; assumption.
    + right. apply Exists_cons_hd. exact Hc.
  - right. apply Exists_cons_tl. exact IH.
Qed.

Lemma trim_nonblank_iff (s : Js.str) :
  Js.trim s <> [] <-> Exists (fun c => Js.isWhiteSpace c = false) s.
Proof.
  split.
  - intros H. destruct (blank_or_not s) as [Hall|Hex]; [|exact Hex].
    exfalso. apply H. apply trim_blank. exact Hall.
  - intros Hex Hnil. apply trim_nil_blank in Hnil.
    rewrite Forall_forall in Hnil. apply Exists_exists in Hex.
    destruct Hex as (c & Hin & Hc). specialize (Hnil c Hin). congruence.
Qed.

(** ** When a conversion starts *)

(** X1. [handleOrganize] sends its request exactly when the input holds a
    code unit that is not white space, and is the identity exactly when
    it holds none; the button bound to it is enabled exactly when, besides,
    no conversion is being processed. *)
Theorem organize_starts_iff (w : World) :
  (effects (handleOrganize w)
   = effects w ++ [GeminiService.request (inputText w) (template w)]
   <-> Exists (fun c => Js.isWhiteSpace c = false) (inputText w))
  /\ (handleOrganize w = w
      <-> Forall (fun c => Js.isWhiteSpace c = true) (inputText w))
  /\ (organizeDisabled w = false
      <-> isProcessing w = false
          /\ Exists (fun c => Js.isWhiteSpace c = false) (inputText w)).
Proof.
  split; [|split].
  - rewrite handleOrganize_calls_iff. apply trim_nonblank_iff.
  - split.
    + intros Hid. destruct (blank_or_not (inputText w)) as [H|H]; [exact H|].
      exfalso. apply trim_nonblank_iff, handleOrganize_calls_iff in H.
      rewrite Hid in H. apply (f_equal length) in H.
      rewrite length_app in H. simpl in H. lia.
    + apply handleOrganize_blank.
  - unfold organizeDisabled. rewrite <- trim_nonblank_iff.
    destruct (Js.trim (inputText w)) as [|c t], (isProcessing w); simpl;
      intuition (try congruence; try discriminate).
Qed.

(** ** The shape of a title *)

Example ellipsis_units : Js.lit "..." = [46; 46; 46]%N.
Proof. reflexivity. Qed.

(** X2. The title of a new log has at most 28 code units and does not
    start with white space; it is not empty when the input is not blank;
    it is no longer than an input of at most 25 code units; and an input
    of more than 25 code units whose first 25 are blank gets the title
    of three dots alone. *)
Theorem title_shape (s : Js.str) :
  length (newLogTitle s) <= 28
  /\ (forall c t, newLogTitle s = c :: t -> Js.isWhiteSpace c = false)
  /\ (Js.trim s <> [] -> newLogTitle s <> [])
  /\ (length s <= 25 -> length (newLogTitle s) <= length s)
  /\ (25 < length s ->
      Forall (fun c => Js.isWhiteSpace c = true) (take 25 s) ->
      newLogTitle s = Js.lit "...").
Proof.
  unfold newLogTitle, Js.slice0. rewrite ellipsis_units.
  pose proof (trim_length (take 25 s)) as Hlen.
  rewrite length_take in Hlen.
  split; [|split; [|split; [|split]]].
  - rewrite length_app. destruct (25 <? length s); simpl; lia.
  - intros c t H. destruct (Js.trim (take 25 s)) as [|d u] eqn:E.
    + destruct (25 <? length s); simpl in H; [|discriminate].
      injection H as <- _. reflexivity.
    + simpl in H. injection H as <- _. exact (trim_head _ _ _ E).
  - intros Hnb. destruct (Nat.ltb_spec 25 (length s)) as [Hlt|Hle].
    + intros H. apply app_eq_nil in H. destruct H as [_ H]. discriminate.
    + rewrite take_ge by exact Hle. rewrite app_nil_r. exact Hnb.
  - intros Hle. destruct (Nat.ltb_spec 25 (length s)) as [Hlt|_]; [lia|].
    rewrite length_app. simpl. lia.
  - intros Hlt Hblank. rewrite (trim_blank _ Hblank).
    destruct (Nat.ltb_spec 25 (length s)) as [_|Hle]; [reflexivity|lia].
Qed.

Lemma title_shape_witness :
  newLogTitle (replicate 26 32%N ++ Js.lit "Kim") = Js.lit "...".
Proof.
  apply (title_shape (replicate 26 32%N ++ Js.lit "Kim")).
  - vm_compute. lia.
  - vm_compute. repeat constructor.
Defined.

(** ** Identifiers *)

Lemma ofDigits_digits (fuel : nat) (n : N) (acc : Js.str) :
  (n < 2 ^ N.of_nat fuel)%N ->
  Js.ofDigits 0 (Js.digits fuel n acc) = Js.ofDigits n acc.
Proof.
  revert n acc. induction fuel as [|fuel IH]; intros n acc Hn.
  - simpl in *. replace n with 0%N by lia. reflexivity.
  - cbn [Js.digits]. destruct (N.ltb_spec n 10) as [Hlt|Hge].
    + unfold Js.ofDigits. cbn [fold_left]. f_equal.
      rewrite (N.mod_small n 10) by exact Hlt. lia.
    + rewrite IH.
      * unfold Js.ofDigits. cbn [fold_left]. f_equal.
        pose proof (N.Div0.div_mod n 10) as H.
        set (q := (n / 10)%N) in *. set (d := (n mod 10)%N) in *.
        clearbody q d. lia.
      * rewrite Nat2N.inj_succ, N.pow_succ_r' in Hn.
        apply N.Div0.div_lt_upper_bound. lia.
Qed.

Lemma ofDigits_toString (n : N) : Js.ofDigits 0 (Js.toString n) = n.
Proof.
  unfold Js.toString. rewrite ofDigits_digits; [reflexivity|].
  destruct n as [|p]; [reflexivity|].
  rewrite Nat2N.inj_succ, N2Nat.id.
  apply N.log2_spec. reflexivity.
Qed.

(** X3. The decimal string of a time stamp reads back as that time
    stamp, so [toString] is injective: two logs carry the same id exactly
    when they were created at the same value of [Date.now()], whatever
    their text, template or result. *)
Theorem id_per_millisecond
    (c c' : Closure) (clock clock' : Clock) (r r' : Js.str) :
  Js.ofDigits 0 (InterviewLog.id (newLog c clock r)) = now clock
  /\ (InterviewLog.id (newLog c clock r) = InterviewLog.id (newLog c' clock' r')
      <-> now clock = now clock').
Proof.
  cbn [newLog InterviewLog.id]. split; [apply ofDigits_toString|].
  split; intros H.
  - rewrite <- (ofDigits_toString (now clock)), H. apply ofDigits_toString.
  - rewrite H. reflexivity.
Qed.

(** ** What an event can do to the history *)


(** An event leaves the history and the stored item alone, or appends a
    log to some earlier history, or filters an id out, or loads the stored
    list; the selection moves accordingly. *)
Lemma step_history_cases (v : Variant) (e : Event) (w : World) :
  let w' := step v e w in
  (history w' = history w /\ localStorage w' = localStorage w
   /\ (selectedLogId w' = selectedLogId w \/ selectedLogId w' = None
       \/ exists log, log ∈ history w
                      /\ selectedLogId w' = Some (InterviewLog.id log)))
  \/ (exists log closed,
        history w' = take 20 (log :: closed)
        /\ localStorage w' = Some (Json (history w'))
        /\ selectedLogId w' = Some (InterviewLog.id log))
  \/ (exists id,
        history w' = filter (fun h => InterviewLog.id h <> id) (history w)
        /\ localStorage w' = Some (Json (history w'))
        /\ (selectedLogId w' = None
            \/ (selectedLogId w' = selectedLogId w
                /\ selectedLogId w <> Some id)))
  \/ (exists logs,
        localStorage w = Some (Json logs) /\ history w' = logs
        /\ localStorage w' = localStorage w
        /\ selectedLogId w' = selectedLogId w).
Proof.
  intros w'. subst w'.
  assert (Hsame : forall w0 : World,
             history w0 = history w -> localStorage w0 = localStorage w ->
             selectedLogId w0 = selectedLogId w \/ selectedLogId w0 = None ->
             (history w0 = history w /\ localStorage w0 = localStorage w
              /\ (selectedLogId w0 = selectedLogId w \/ selectedLogId w0 = None
                  \/ exists log, log ∈ history w
                       /\ selectedLogId w0 = Some (InterviewLog.id log)))).
  { intros w0 H1 H2 H3. repeat split; tauto. }
  destruct e; unfold step, onMain, Button.
  - (* Mounted *)
    unfold loadHistory. destruct (localStorage w) as [[logs|s]|] eqn:Hst.
    + right. right. right. exists logs. repeat split; assumption.
    + left. destruct (Js.truthy s); apply Hsame; auto.
    + left. apply Hsame; auto.
  - left. destruct v; [|destruct r]; apply Hsame; auto.
  - left. destruct v; apply Hsame; auto.
  - left. destruct (mainRendered v w); apply Hsame; auto.
  - left. destruct (mainRendered v w); apply Hsame; auto.
  - left. destruct (mainRendered v w); apply Hsame; auto.
  - left. destruct (history w !! i) as [log|] eqn:Hi; [|apply Hsame; auto].
    destruct (mainRendered v w); [|apply Hsame; auto].
    repeat split. right. right. exists log.
    split; [exact (list_elem_of_lookup_2 _ _ _ Hi)|reflexivity].
  - destruct (history w !! i) as [log|] eqn:Hi; [|left; apply Hsame; auto].
    destruct (mainRendered v w); [|left; apply Hsame; auto].
    unfold deleteHistoryItem.
    destruct confirmed; [|left; apply Hsame; auto].
    right. right. left. exists (InterviewLog.id log).
    destruct (decide (selectedLogId w = Some (InterviewLog.id log)))
      as [Hsel|Hsel]; repeat split; auto.
  - left. unfold confirmClear.
    destruct (mainRendered v w); [|apply Hsame; auto].
    destruct (Js.truthy (Js.trim (inputText w)) || Js.truthy (organizedContent w));
      [destruct confirmed|]; apply Hsame; auto.
  - left. unfold handleOrganize.
    destruct (mainRendered v w); [|apply Hsame; auto].
    destruct (organizeDisabled w); [apply Hsame; auto|].
    destruct (negb (Js.truthy (Js.trim (inputText w)))); apply Hsame; auto.
  - left. unfold copyToClipboard.
    destruct (resultActionsRendered w); [|apply Hsame; auto].
    destruct (mainRendered v w); [|apply Hsame; auto].
    destruct (negb (Js.truthy (organizedContent w))); apply Hsame; auto.
  - left. apply Hsame; auto.
  - left. destruct (resultActionsRendered w); [|apply Hsame; auto].
    destruct (mainRendered v w); apply Hsame; auto.
  - (* ServiceSettled *)
    unfold settle. destruct (inflight w !! k) as [c|]; [|left; apply Hsame; auto].
    destruct (GeminiService.resume api) as [es [result|error]].
    + right. left. exists (newLog c clock result), (c_history c).
      repeat split.
    + left. unfold handleOrganize_resume, handleOrganize_catch.
      destruct v; [apply Hsame; auto|].
      destruct (decide (message error = Some API_KEY_ERROR));
        apply Hsame; auto.
Qed.

Lemma run_preserves (P : World -> Prop) (v : Variant) :
  (forall e w, P w -> P (step v e w)) ->
  forall es w, P w -> P (run v es w).
Proof.
  intros Hstep es. induction es as [|e es IH]; intros w Hw; [exact Hw|].
  apply IH, Hstep, Hw.
Qed.

Lemma run_snoc (v : Variant) (es : list Event) (e : Event) (w : World) :
  run v (es ++ [e]) w = step v e (run v es w).
Proof. unfold run. rewrite fold_left_app. reflexivity. Qed.

(** ** The stored item follows the displayed history *)







(** ** The bound along the events *)

Lemma step_bounded (v : Variant) (e : Event) (w : World) :
  historyBounded w -> historyBounded (step v e w).
Proof.
  intros [Hlen Hst]. unfold historyBounded.
  assert (Htake : forall (log : InterviewLog.t) closed,
             length (take 20 (log :: closed)) <= 20).
  { intros log closed. rewrite length_take. lia. }
  destruct (step_history_cases v e w)
    as [(Hh & Hs & _)|[(log & closed & Hh & Hs & _)
       |[(id & Hh & Hs & _)|(logs & Hsome & Hh & Hs & _)]]].
  - rewrite Hh, Hs. split; assumption.
  - rewrite Hs, Hh. split; [apply Htake|].
    intros logs Heq. injection Heq as <-. apply Htake.
  - assert (Hf : length (filter (fun h => InterviewLog.id h <> id) (history w))
                 <= 20).
    { pose proof (length_filter (fun h => InterviewLog.id h <> id)
                    (history w)). lia. }
    rewrite Hs, Hh. split; [exact Hf|].
    intros logs Heq. injection Heq as <-. exact Hf.
  - rewrite Hs, Hh. split; [apply Hst; exact Hsome|exact Hst].
Qed.

(** X6. When the stored list, if there is one at the mount, has at most
    20 records, then along every sequence of events the displayed history
    and the stored list never have more than 20; the load itself does not
    truncate: a longer stored list is displayed whole. *)
Theorem history_bounded_along_events
    (v : Variant) (es : list Event) (item : option Item) :
  (forall logs, item = Some (Json logs) -> length logs <= 20) ->
  historyBounded (run v es (mountedWith item))
  /\ forall logs, history (run v [Mounted] (mountedWith (Some (Json logs))))
                  = logs.
Proof.
  intros Hitem. split; [|reflexivity].
  apply (run_preserves historyBounded v); [apply step_bounded|].
  split; [simpl; lia|exact Hitem].
Qed.

Lemma history_bounded_along_events_witness :
  historyBounded
    (run KeyGated [Mounted; ClickItem 0; ClickTrash 1 true]
       (mountedWith (Some (Json (sampleLogs 20))))).
Proof.
  apply (history_bounded_along_events KeyGated
           [Mounted; ClickItem 0; ClickTrash 1 true]
           (Some (Json (sampleLogs 20)))).
  intros logs H. injection H as <-. vm_compute. lia.
Defined.

(** ** A conversion that settles late *)




(** ** A conversion and the record it leaves *)



(** ** Deletions together, and with an append *)

Lemma filter_id_comm (a b : Js.str) (l : list InterviewLog.t) :
  filter (fun h => InterviewLog.id h <> a)
    (filter (fun h => InterviewLog.id h <> b) l)
  = filter (fun h => InterviewLog.id h <> b)
      (filter (fun h => InterviewLog.id h <> a) l).
Proof.
  rewrite !list_filter_filter. apply list_filter_iff. intros h. tauto.
Qed.

Lemma filter_id_idemp (a : Js.str) (l : list InterviewLog.t) :
  filter (fun h => InterviewLog.id h <> a)
    (filter (fun h => InterviewLog.id h <> a) l)
  = filter (fun h => InterviewLog.id h <> a) l.
Proof.
  rewrite list_filter_filter. apply list_filter_iff. intros h. tauto.
Qed.

(** X9. Confirmed deletions never lengthen the history; deleting the
    same id twice is deleting it once; deletions of two ids give the same
    history in either order; and deleting a log that was just appended
    under an id no other record has gives back the first 19 records of the
    earlier history: a 20th record that the append evicted stays lost. *)
Theorem deletions_compose (w : World) (a b : Js.str) (log : InterviewLog.t) :
  length (history (deleteHistoryItem a true w)) <= length (history w)
  /\ history (deleteHistoryItem a true (deleteHistoryItem a true w))
     = history (deleteHistoryItem a true w)
  /\ history (deleteHistoryItem a true (deleteHistoryItem b true w))
     = history (deleteHistoryItem b true (deleteHistoryItem a true w))
  /\ (Forall (fun h => InterviewLog.id h <> InterviewLog.id log) (history w) ->
      history (deleteHistoryItem (InterviewLog.id log) true (append log w))
      = take 19 (history w)).
Proof.
  rewrite !history_delete. split; [apply length_filter|].
  split; [apply filter_id_idemp|]. split; [apply filter_id_comm|].
  intros Hfresh. rewrite history_append.
  change (take 20 (log :: history w)) with (log :: take 19 (history w)).
  rewrite filter_cons_False by (intros H; apply H; reflexivity).
  apply filter_all. apply Forall_take. exact Hfresh.
Qed.

Lemma deletions_compose_witness :
  history (deleteHistoryItem (InterviewLog.id (sampleLog 21)) true
             (append (sampleLog 21) (setHistory (sampleLogs 20) initial)))
  = take 19 (history (setHistory (sampleLogs 20) initial)).
Proof.
  apply (deletions_compose (setHistory (sampleLogs 20) initial) [] []
           (sampleLog 21)).
  vm_compute. repeat constructor; discriminate.
Defined.

(** ** A new entry *)

(** X10. A reset that is confirmed, or that needs no confirmation
    because the input is blank and there is no result, leaves a blank
    entry with the organize button disabled, is the same when done twice,
    and touches neither the history, the stored item, the busy flag nor
    the pending calls; a reset that is declined while there is content
    changes nothing. *)
Theorem reset_gives_blank_entry (v : Variant) (w : World) :
  let w' := confirmClear true w in
  blankEntry w'
  /\ organizeDisabled w' = true
  /\ confirmClear true w' = w'
  /\ (forall b, confirmClear b w' = w')
  /\ history w' = history w
  /\ localStorage w' = localStorage w
  /\ isProcessing w' = isProcessing w
  /\ inflight w' = inflight w
  /\ (Js.trim (inputText w) = [] -> organizedContent w = [] ->
      confirmClear false w = w')
  /\ (Js.trim (inputText w) <> [] \/ organizedContent w <> [] ->
      step v (ClickClear false) w = w).
Proof.
  intros w'. subst w'.
  assert (Hc : confirmClear true w = handleNewLog w).
  { unfold confirmClear.
    destruct (Js.truthy (Js.trim (inputText w)) || Js.truthy (organizedContent w));
      reflexivity. }
  assert (Hb : forall b, confirmClear b (handleNewLog w) = handleNewLog w).
  { intros b. destruct w. reflexivity. }
  rewrite Hc.
  split; [repeat split|]. split; [reflexivity|]. split; [apply Hb|].
  split; [exact Hb|]. split; [reflexivity|]. split; [reflexivity|].
  split; [reflexivity|]. split; [reflexivity|]. split.
  - intros Hi Ho. unfold confirmClear. rewrite Hi, Ho. reflexivity.
  - intros Hcontent. unfold step, onMain, Button, confirmClear.
    destruct (mainRendered v w); [|reflexivity].
    destruct Hcontent as [H|H]; rewrite (truthy_nonempty _ H);
      [|rewrite orb_true_r]; reflexivity.
Qed.

Lemma reset_gives_blank_entry_witness :
  step Plain (ClickClear false) sampleSession = sampleSession
  /\ confirmClear false initial = confirmClear true initial.
Proof.
  destruct (reset_gives_blank_entry Plain sampleSession)
    as (_ & _ & _ & _ & _ & _ & _ & _ & _ & Hdeclined).
  destruct (reset_gives_blank_entry Plain initial)
    as (_ & _ & _ & _ & _ & _ & _ & _ & Hblank & _).
  split.
  - apply Hdeclined. left. vm_compute. discriminate.
  - apply Hblank; reflexivity.
Defined.

(** ** The setup gate of the key-gated variant *)

Lemma plain_keeps_key (e : Event) (w : World) :
  isKeySelected (step Plain e w) = isKeySelected w.
Proof.
  destruct e; unfold step, onMain, Button, mainRendered;
    try reflexivity.
  - unfold loadHistory. destruct (localStorage w) as [[logs|s]|];
      [|destruct (Js.truthy s)|]; reflexivity.
  - destruct (history w !! i); reflexivity.
  - destruct (history w !! i); [|reflexivity]. unfold deleteHistoryItem.
    destruct confirmed; [|reflexivity].
    destruct (decide (selectedLogId w = Some (InterviewLog.id t)));
      reflexivity.
  - unfold confirmClear.
    destruct (Js.truthy (Js.trim (inputText w)) || Js.truthy (organizedContent w));
      [destruct confirmed|]; reflexivity.
  - unfold handleOrganize. destruct (organizeDisabled w); [reflexivity|].
    destruct (negb (Js.truthy (Js.trim (inputText w)))); reflexivity.
  - unfold copyToClipboard. destruct (resultActionsRendered w); [|reflexivity].
    destruct (negb (Js.truthy (organizedContent w))); reflexivity.
  - destruct (resultActionsRendered w); reflexivity.
  - unfold settle. destruct (inflight w !! k); [|reflexivity].
    destruct (GeminiService.resume api) as [es [result|error]]; reflexivity.
Qed.

(** X11. In the key-gated variant, while [isKeySelected] is false the
    setup gate stands in for the main content: no click or edit on the
    main content changes anything, and closing the key selector shows the
    main content again whether or not a key was chosen. A key check that is
    rejected, or that reports no key, raises the gate. The plain variant
    never changes [isKeySelected] and always shows the main content. *)
Theorem setup_gate (w : World) :
  isKeySelected w = Some false ->
  (forall e, onMainContent e = true -> step KeyGated e w = w)
  /\ mainRendered KeyGated (step KeyGated KeySelectorClosed w) = true
  /\ (forall w0 reason,
        mainRendered KeyGated
          (step KeyGated (KeyChecked (Rejected reason)) w0) = false
        /\ mainRendered KeyGated
             (step KeyGated (KeyChecked (Fulfilled false)) w0) = false)
  /\ forall es w0,
       isKeySelected (run Plain es w0) = isKeySelected w0
       /\ mainRendered Plain (run Plain es w0) = true.
Proof.
  intros Hgate.
  assert (Hmain : mainRendered KeyGated w = false).
  { unfold mainRendered. rewrite Hgate. reflexivity. }
  split; [|split; [reflexivity|split]].
  - intros e He. destruct e; try discriminate He;
      unfold step, onMain; rewrite ?Hmain; try reflexivity.
    + destruct (history w !! i); reflexivity.
    + destruct (history w !! i); reflexivity.
    + destruct (resultActionsRendered w); reflexivity.
    + destruct (resultActionsRendered w); reflexivity.
  - intros w0 reason. split; reflexivity.
  - intros es w0. split; [|reflexivity].
    revert w0. induction es as [|e es IH]; intros w0; [reflexivity|].
    change (run Plain (e :: es) w0) with (run Plain es (step Plain e w0)).
    rewrite IH. apply plain_keeps_key.
Qed.

Lemma setup_gate_witness :
  let w := checkKey (Rejected (ErrorObject (Js.lit "no aistudio")))
             sampleSession in
  step KeyGated ClickOrganize w = w
  /\ mainRendered KeyGated (step KeyGated KeySelectorClosed w) = true.
Proof.
  intros w.
  destruct (setup_gate w) as (Hblocked & Hopen & _); [reflexivity|].
  split; [apply Hblocked; reflexivity|exact Hopen].
Defined.

(** ** What reaches the outside *)




(** ** Opening a record and deleting it *)




(** ** The mount *)

